(** * The [User] model of app/models.py

    The source is one pydantic model:

      class User(BaseModel):
          id: int
          name: str
          email: str
          users: Optional[List[str]] = None
          address: Optional[str] = None

    The class body declares five fields and nothing else: no validator, no
    method, no model configuration.  What constructing a [User] from
    keyword arguments does is therefore what pydantic does for these five
    annotations under its default configuration: fields are validated in
    declaration order, every failure is collected into one
    [ValidationError], keys that are not fields are ignored, values of
    another type are coerced where the library knows a conversion, and
    instances accept attribute assignment. *)

From Stdlib Require Import Ascii.
From stdpp Require Import gmap strings list fin_maps pretty.

Open Scope string_scope.
Open Scope list_scope.
Open Scope Z_scope.

(** ** Python values

    The values a keyword argument can carry, restricted to the JSON-like
    ones: [None], booleans, integers (unbounded in Python), text and lists.
    Tuples, sets, floats and bytes, which the library also takes for some
    of the fields, are not represented: a statement below about "every
    value" is about these five kinds, and the statements name the kind of
    value they are about or go by the verdict of the validator. *)

#[warnings="-register-all"] Inductive value : Type :=
| VNone
| VBool (b : bool)
| VInt (z : Z)
| VStr (s : string)
| VList (l : list value).

(** ** Declared fields, in declaration order *)

Inductive field : Type := f_id | f_name | f_email | f_users | f_address.

Definition field_name (f : field) : string :=
  match f with
  | f_id => "id"
  | f_name => "name"
  | f_email => "email"
  | f_users => "users"
  | f_address => "address"
  end.

Definition fields : list field := [f_id; f_name; f_email; f_users; f_address].

Definition required (f : field) : bool :=
  match f with
  | f_id | f_name | f_email => true
  | f_users | f_address => false
  end.

Definition is_field_name (k : string) : bool :=
  bool_decide (k ∈ field_name <$> fields).

(** The validated record: field types are the annotations of the class. *)

Record User : Type := mkUser {
  id : Z;
  name : string;
  email : string;
  users : option (list string);
  address : option string
}.

(** ** Validation errors

    An error names the place it occurred at, a field or an item of the
    [users] list, and says whether the value was missing or of a type the
    field does not take. *)

Inductive error_type : Type := missing | type_mismatch.

Inductive location : Type :=
| at_field (f : field)
| at_item (f : field) (i : nat).

Record ErrorDetails : Type := mkError {
  loc : location;
  type : error_type
}.

Inductive result : Type :=
| Ok (u : User)
| ValidationError (errors : list ErrorDetails).

(** ** Conversions between types

    In the default (lax) mode a field takes values of another type when the
    library knows a conversion.  Which conversions exist depends on the
    release: every release reads an integer out of text for an [int] field,
    but the accepted literals differ at the margin (underscores, a trailing
    [.0]); the 1.x releases print numbers and booleans into a [str] field,
    the 2.x releases refuse them.  These three conversions are kept as a
    record so that every statement below holds for any release. *)

Record Coercions : Type := mkCoercions {
  str_as_int : string → option Z;
  int_as_str : Z → option string;
  bool_as_str : bool → option string
}.

(** Plain decimal literals, which every release accepts: optional
    surrounding white space, an optional sign, one or more digits.  This
    is not the whole parser of any release: literals with underscores or a
    trailing [.0], which some releases also read, are refused here, and no
    limit is put on the number of digits. *)

Definition is_space (a : ascii) : bool :=
  bool_decide (a ∈ [" "; "009"; "010"; "011"; "012"; "013"]%char).

Fixpoint strip_left (s : string) : string :=
  match s with
  | String a s' => if is_space a then strip_left s' else s
  | EmptyString => s
  end.

Definition strip (s : string) : string :=
  String.rev (strip_left (String.rev (strip_left s))).

Definition digit_of (a : ascii) : option Z :=
  let n := Z.of_N (N_of_ascii a) in
  if bool_decide (48 ≤ n ≤ 57) then Some (n - 48) else None.

Fixpoint digits_from (acc : Z) (s : string) : option Z :=
  match s with
  | EmptyString => Some acc
  | String a s' =>
      match digit_of a with
      | Some d => digits_from (10 * acc + d) s'
      | None => None
      end
  end.

Definition digits (s : string) : option Z :=
  match s with
  | EmptyString => None
  | _ => digits_from 0 s
  end.

Definition decimal_literal (s : string) : option Z :=
  match strip s with
  | String "-" s' => Z.opp <$> digits s'
  | String "+" s' => digits s'
  | s' => digits s'
  end.

(** Conversions in the manner of the 2.x releases: numbers never become
    text.  Text is read as an integer on plain decimal literals only. *)
Definition lax_v2 : Coercions :=
  {| str_as_int := decimal_literal;
     int_as_str := λ _, None;
     bool_as_str := λ _, None |}.

(** Conversions in the manner of the 1.x releases: [str(v)] is stored
    for a number or a boolean.  Text is read as an integer on plain decimal
    literals only. *)
Definition lax_v1 : Coercions :=
  {| str_as_int := decimal_literal;
     int_as_str := λ z, Some (pretty z);
     bool_as_str := λ b, Some (if b then "True" else "False") |}.

Section Validation.
Context (c : Coercions).

(** *** Validators of the annotations *)

(** [int]: an integer is taken as it is, a boolean is the integer it is
    in Python, text is parsed. *)
Definition int_validator (v : value) : option Z :=
  match v with
  | VInt z => Some z
  | VBool b => Some (if b then 1 else 0)
  | VStr s => str_as_int c s
  | VNone | VList _ => None
  end.

(** [str] *)
Definition str_validator (v : value) : option string :=
  match v with
  | VStr s => Some s
  | VInt z => int_as_str c z
  | VBool b => bool_as_str c b
  | VNone | VList _ => None
  end.

(** [List[str]]: every item goes through the [str] validator; each item
    that fails is reported at its index.  [i] is the index of the head. *)
Fixpoint list_items (f : field) (i : nat) (l : list value)
  : list ErrorDetails + list string :=
  match l with
  | [] => inr []
  | v :: l' =>
      match str_validator v, list_items f (S i) l' with
      | Some s, inr ss => inr (s :: ss)
      | Some _, inl es => inl es
      | None, inr _ => inl [mkError (at_item f i) type_mismatch]
      | None, inl es => inl (mkError (at_item f i) type_mismatch :: es)
      end
  end.

Definition list_validator (f : field) (v : value)
  : list ErrorDetails + list string :=
  match v with
  | VList l => list_items f 0 l
  | _ => inl [mkError (at_field f) type_mismatch]
  end.

(** A scalar validator reports a failure at the field itself. *)
Definition at_top {A} (f : field) (o : option A) : list ErrorDetails + A :=
  match o with
  | Some a => inr a
  | None => inl [mkError (at_field f) type_mismatch]
  end.

(** *** Presence *)

(** A field without a default must be supplied. *)
Definition validate_required {A} (f : field)
    (validator : value → list ErrorDetails + A)
    (data : gmap string value) : list ErrorDetails + A :=
  match data !! field_name f with
  | None => inl [mkError (at_field f) missing]
  | Some v => validator v
  end.

(** [Optional[T] = None]: the default when the key is absent, [None]
    when [None] is supplied, the inner validator otherwise. *)
Definition validate_optional {A} (f : field)
    (validator : value → list ErrorDetails + A)
    (data : gmap string value) : list ErrorDetails + option A :=
  match data !! field_name f with
  | None => inr None
  | Some VNone => inr None
  | Some v =>
      match validator v with
      | inr a => inr (Some a)
      | inl es => inl es
      end
  end.

Definition errors_of {A} (r : list ErrorDetails + A) : list ErrorDetails :=
  match r with
  | inl es => es
  | inr _ => []
  end.

(** *** Construction from the keyword arguments [data] *)

Definition validate_id := validate_required f_id (λ v, at_top f_id (int_validator v)).
Definition validate_name := validate_required f_name (λ v, at_top f_name (str_validator v)).
Definition validate_email := validate_required f_email (λ v, at_top f_email (str_validator v)).
Definition validate_users := validate_optional f_users (list_validator f_users).
Definition validate_address :=
  validate_optional f_address (λ v, at_top f_address (str_validator v)).

(** Every field is validated, whatever happened to the ones before it;
    the record is built when all five passed, and otherwise the errors
    of all fields are raised together, in declaration order. *)
Definition User_init (data : gmap string value) : result :=
  match validate_id data, validate_name data, validate_email data,
        validate_users data, validate_address data with
  | inr i, inr n, inr e, inr us, inr a => Ok (mkUser i n e us a)
  | r_id, r_name, r_email, r_users, r_address =>
      ValidationError (errors_of r_id ++ errors_of r_name ++ errors_of r_email
                       ++ errors_of r_users ++ errors_of r_address)
  end.

End Validation.

(** ** Serialization to the field mapping *)

Definition dump_optional {A} (inj : A → value) (o : option A) : value :=
  match o with
  | Some a => inj a
  | None => VNone
  end.

Definition model_dump (u : User) : gmap string value :=
  <["id" := VInt (id u)]>
  (<["name" := VStr (name u)]>
  (<["email" := VStr (email u)]>
  (<["users" := dump_optional (λ l, VList (VStr <$> l)) (users u)]>
  (<["address" := dump_optional VStr (address u)]> ∅)))).

(** The scenarios of the specification. *)

Definition scenario_A : gmap string value :=
  <["id" := VInt 1]> (<["name" := VStr "Ana"]> (<["email" := VStr "ana@example.com"]> ∅)).

Definition scenario_B : gmap string value :=
  <["id" := VInt 2]> (<["name" := VStr "Bo"]> (<["email" := VStr "bo@example.com"]>
  (<["users" := VList [VStr "x"; VStr "y"]]> (<["address" := VStr "Main St"]> ∅)))).

Definition scenario_C : gmap string value :=
  <["name" := VStr "NoId"]> (<["email" := VStr "x@example.com"]> ∅).

Definition scenario_D : gmap string value :=
  <["id" := VStr "abc"]> (<["name" := VStr "Bad"]> (<["email" := VStr "x@example.com"]> ∅)).

(** The errors of all five fields, in declaration order, and those of
    one field. *)

Definition all_errors (c : Coercions) (data : gmap string value) : list ErrorDetails :=
  errors_of (validate_id c data) ++ errors_of (validate_name c data)
  ++ errors_of (validate_email c data) ++ errors_of (validate_users c data)
  ++ errors_of (validate_address c data).

Definition field_errors (c : Coercions) (f : field) (data : gmap string value)
  : list ErrorDetails :=
  match f with
  | f_id => errors_of (validate_id c data)
  | f_name => errors_of (validate_name c data)
  | f_email => errors_of (validate_email c data)
  | f_users => errors_of (validate_users c data)
  | f_address => errors_of (validate_address c data)
  end.

(** The input with every key that is not a declared field removed. *)
Definition declared_only (data : gmap string value) : gmap string value :=
  filter (λ kv, is_field_name kv.1 = true) data.

(** The claim that any value of another type on a required field is
    refused, as a statement about a given set of conversions. *)

Definition has_declared_type (f : field) (v : value) : bool :=
  match f, v with
  | f_id, VInt _ => true
  | (f_name | f_email | f_address), VStr _ => true
  | f_users, VList l => forallb (λ x, match x with VStr _ => true | _ => false end) l
  | _, _ => false
  end.

Definition mismatch_always_refused (c : Coercions) : Prop :=
  ∀ (data : gmap string value) f v,
    required f = true →
    data !! field_name f = Some v →
    has_declared_type f v = false →
    ∃ errors, User_init c data = ValidationError errors.

(** Whether the validator of a required field takes the value. *)
Definition coercible (c : Coercions) (f : field) (v : value) : bool :=
  match f with
  | f_id => bool_decide (is_Some (int_validator c v))
  | f_name | f_email | f_address => bool_decide (is_Some (str_validator c v))
  | f_users => bool_decide (is_Some (match list_validator c f_users v with
                                      | inr l => Some l | inl _ => None end))
  end.

Definition numeric_id : gmap string value :=
  <["id" := VStr "123"]> (<["name" := VStr "Bad"]> (<["email" := VStr "x@example.com"]> ∅)).

(** ** Instances as objects

    An instance is an object on the Python heap.  It keeps its field values
    in its attribute dictionary, and every name bound to the instance sees
    that one dictionary.  The heap is the list of the attribute
    dictionaries allocated so far; a reference is an index into it.

    The class defines no operation of its own.  What a program can do with
    an instance is what [BaseModel] gives every model under the default
    configuration: read a field, assign a field, and serialize.  The class
    does not set [frozen] and does not ask for validation on assignment, so
    assigning to a field stores the value as it is. *)

Abbreviation ref := nat (only parsing).
Abbreviation heap := (list (gmap string value)) (only parsing).

Inductive construction : Type :=
| constructed (r : ref)
| raised (errors : list ErrorDetails).

(** Construction allocates the new instance after the existing objects;
    a failed construction allocates nothing. *)
Definition new_User (c : Coercions) (data : gmap string value) (h : heap)
  : construction * heap :=
  match User_init c data with
  | Ok u => (constructed (List.length h), h ++ [model_dump u])
  | ValidationError errors => (raised errors, h)
  end.

Definition getattr (r : ref) (f : field) (h : heap) : option value :=
  d ← h !! r; d !! field_name f.

Inductive operation : Type :=
| get_attribute (f : field)
| set_attribute (f : field) (v : value)
| dump.

Inductive response : Type :=
| attribute (v : option value)
| assigned
| mapping (d : gmap string value)
| no_object.

Definition perform (o : operation) (r : ref) (h : heap) : response * heap :=
  match h !! r with
  | None => (no_object, h)
  | Some d =>
      match o with
      | get_attribute f => (attribute (d !! field_name f), h)
      | set_attribute f v => (assigned, <[r := <[field_name f := v]> d]> h)
      | dump => (mapping d, h)
      end
  end.

(** The claim that nothing a program can do with an instance changes a
    field of it. *)
Definition never_mutated (c : Coercions) : Prop :=
  ∀ (data : gmap string value) (h : heap) r (o : operation) f,
    (new_User c data h).1 = constructed r →
    getattr r f (perform o r (new_User c data h).2).2
    = getattr r f (new_User c data h).2.

(** * Scenarios of the specification *)
Example run_A : User_init lax_v2 scenario_A = Ok (mkUser 1 "Ana" "ana@example.com" None None).
Proof. vm_compute. reflexivity. Qed.

Example run_B : User_init lax_v2 scenario_B
  = Ok (mkUser 2 "Bo" "bo@example.com" (Some ["x"; "y"]) (Some "Main St")).
Proof. vm_compute. reflexivity. Qed.

Example run_C : User_init lax_v2 scenario_C = ValidationError [mkError (at_field f_id) missing].
Proof. vm_compute. reflexivity. Qed.

Example run_D : User_init lax_v2 scenario_D = ValidationError [mkError (at_field f_id) type_mismatch].
Proof. vm_compute. reflexivity. Qed.

Example parse_ok : decimal_literal " -0123 " = Some (-123).
Proof. vm_compute. reflexivity. Qed.

Example parse_refused : decimal_literal "abc" = None ∧ decimal_literal "" = None.
Proof. vm_compute. done. Qed.

(** A number supplied for [name] is where the releases part. *)
Example number_as_name :
  let data := <["name" := VInt 7]> scenario_A in
  User_init lax_v1 data = Ok (mkUser 1 "7" "ana@example.com" None None)
  ∧ User_init lax_v2 data = ValidationError [mkError (at_field f_name) type_mismatch].
Proof. vm_compute. done. Qed.

(** Every failing field and list item is reported, in declaration order. *)
Example errors_collected :
  User_init lax_v2 (<["users" := VList [VStr "x"; VNone; VList []]]>
                    (<["address" := VList []]> scenario_C))
  = ValidationError [mkError (at_field f_id) missing;
                     mkError (at_item f_users 1) type_mismatch;
                     mkError (at_item f_users 2) type_mismatch;
                     mkError (at_field f_address) type_mismatch].
Proof. vm_compute. reflexivity. Qed.

(** * Properties of construction *)

Ltac unfold_validators :=
  unfold validate_id, validate_name, validate_email, validate_users,
    validate_address, validate_required, validate_optional in *;
  simpl field_name in *.

Section Construction.
Context (c : Coercions).
Implicit Types (data : gmap string value) (v : value) (f : field).

Lemma list_items_text f i (l : list string) :
  list_items c f i (VStr <$> l) = inr l.
Proof.
  revert i. induction l as [|s l IH]; intros i; simpl; [done|].
  by rewrite IH.
Qed.

(** Construction either builds the record from the five validated
    fields or raises every collected error. *)
Lemma User_init_cases data :
  (∃ i n e us a,
      validate_id c data = inr i ∧ validate_name c data = inr n ∧
      validate_email c data = inr e ∧ validate_users c data = inr us ∧
      validate_address c data = inr a ∧
      User_init c data = Ok (mkUser i n e us a))
  ∨ User_init c data = ValidationError (all_errors c data).
Proof.
  unfold User_init, all_errors.
  destruct (validate_id c data), (validate_name c data),
    (validate_email c data), (validate_users c data),
    (validate_address c data); eauto 12.
Qed.

Lemma User_init_Ok data i n e us a :
  validate_id c data = inr i → validate_name c data = inr n →
  validate_email c data = inr e → validate_users c data = inr us →
  validate_address c data = inr a →
  User_init c data = Ok (mkUser i n e us a).
Proof. unfold User_init. by intros -> -> -> -> ->. Qed.

Lemma field_errors_all f data e :
  e ∈ field_errors c f data → e ∈ all_errors c data.
Proof.
  unfold all_errors. destruct f; simpl; rewrite !elem_of_app; tauto.
Qed.

Lemma User_init_rejected f data e :
  e ∈ field_errors c f data →
  User_init c data = ValidationError (all_errors c data).
Proof.
  intros He. destruct (User_init_cases data) as [(i&n&em&us&a&H1&H2&H3&H4&H5&_)|]; [|done].
  destruct f; simpl in He;
    rewrite ?H1, ?H2, ?H3, ?H4, ?H5 in He; simpl in He; by apply elem_of_nil in He.
Qed.

Lemma missing_field_errors f data :
  required f = true → data !! field_name f = None →
  mkError (at_field f) missing ∈ field_errors c f data.
Proof.
  destruct f; try done; simpl; intros _ H;
    unfold validate_id, validate_name, validate_email, validate_required;
    simpl in *; rewrite H; simpl; apply list_elem_of_here.
Qed.

Lemma refused_field_errors f data v :
  required f = true → data !! field_name f = Some v → coercible c f v = false →
  mkError (at_field f) type_mismatch ∈ field_errors c f data.
Proof.
  destruct f; try done; simpl; intros _ H Hc;
    unfold validate_id, validate_name, validate_email, validate_required;
    simpl in *; rewrite H;
    apply bool_decide_eq_false in Hc;
    [destruct (int_validator c v) eqn:E | destruct (str_validator c v) eqn:E
     | destruct (str_validator c v) eqn:E];
    simpl; first [by destruct Hc; eauto | apply list_elem_of_here].
Qed.

(** Construction looks at the five declared keys only. *)
Lemma User_init_ext data data' :
  (∀ f, data !! field_name f = data' !! field_name f) →
  User_init c data = User_init c data'.
Proof.
  intros H. unfold User_init, validate_id, validate_name, validate_email,
    validate_users, validate_address, validate_required, validate_optional.
  by rewrite (H f_id), (H f_name), (H f_email), (H f_users), (H f_address).
Qed.

(** Well-typed values pass every validator unchanged. *)
Lemma User_init_typed data i n e us a :
  data !! "id" = Some (VInt i) →
  data !! "name" = Some (VStr n) →
  data !! "email" = Some (VStr e) →
  data !! "users" = (λ l, VList (VStr <$> l)) <$> us →
  data !! "address" = VStr <$> a →
  User_init c data = Ok (mkUser i n e us a).
Proof.
  intros Hid Hname Hemail Husers Haddress.
  apply User_init_Ok; unfold_validators.
  - by rewrite Hid.
  - by rewrite Hname.
  - by rewrite Hemail.
  - rewrite Husers. destruct us as [l|]; simpl; [|done].
    by rewrite list_items_text.
  - rewrite Haddress. by destruct a.
Qed.

End Construction.

(** * The record built from well-typed input *)

(** C1.  When [id] is supplied as an integer and [name] and [email] as
    text, whatever that text is, construction succeeds; the record carries
    exactly the supplied [id], [name] and [email]; [users] and [address]
    carry the supplied list of text and the supplied text when given, and
    the no-value marker when the key is absent. *)
Theorem init_typed_fields (c : Coercions) (data : gmap string value)
    (i : Z) (n e : string) (us : option (list string)) (a : option string) :
  data !! "id" = Some (VInt i) →
  data !! "name" = Some (VStr n) →
  data !! "email" = Some (VStr e) →
  data !! "users" = (λ l, VList (VStr <$> l)) <$> us →
  data !! "address" = VStr <$> a →
  User_init c data = Ok (mkUser i n e us a)
  ∧ id (mkUser i n e us a) = i ∧ name (mkUser i n e us a) = n
  ∧ email (mkUser i n e us a) = e
  ∧ users (mkUser i n e us a) = us ∧ address (mkUser i n e us a) = a.
Proof.
  intros Hid Hname Hemail Husers Haddress.
  split; [|done]. by apply User_init_typed.
Qed.

Lemma init_typed_fields_witness :
  User_init lax_v2 scenario_B
  = Ok (mkUser 2 "Bo" "bo@example.com" (Some ["x"; "y"]) (Some "Main St")).
Proof.
  apply (init_typed_fields lax_v2 scenario_B 2 "Bo" "bo@example.com"
           (Some ["x"; "y"]) (Some "Main St")); reflexivity.
Defined.

(** * Rejected input *)

(** C2.  When at least one of [id], [name], [email] is absent from the
    input, construction fails with a [ValidationError], and the error
    reports every absent required field as missing. *)
Theorem init_missing_required (c : Coercions) (data : gmap string value) :
  (∃ f, required f = true ∧ data !! field_name f = None) →
  ∃ errors,
    User_init c data = ValidationError errors
    ∧ ∀ f, required f = true → data !! field_name f = None →
           mkError (at_field f) missing ∈ errors.
Proof.
  intros (f0 & Hreq & Habsent). exists (all_errors c data). split.
  - eapply User_init_rejected. by apply missing_field_errors.
  - intros f Hf Hnone. eapply field_errors_all. by apply missing_field_errors.
Qed.

Lemma init_missing_required_witness :
  ∃ errors,
    User_init lax_v2 scenario_C = ValidationError errors
    ∧ ∀ f, required f = true → scenario_C !! field_name f = None →
           mkError (at_field f) missing ∈ errors.
Proof.
  apply (init_missing_required lax_v2 scenario_C).
  exists f_id. split; reflexivity.
Defined.

(** C3, as stated, fails: numeric text supplied for [id] is not of the
    declared type, yet it is converted and the record is built. *)
Lemma mismatch_accepted : ¬ mismatch_always_refused lax_v2.
Proof.
  intros H.
  destruct (H numeric_id f_id (VStr "123")) as [errors Herr]; [done..|].
  vm_compute in Herr. discriminate.
Qed.

(** C3, amended.  When the value supplied for [id], [name] or [email]
    cannot be converted to the declared type of the field, construction
    fails and the error reports that field; a value of another type that
    the library converts is accepted, as numeric text for [id] is: the
    record then carries the integer read from the text. *)
Theorem init_refuses_unconvertible (c : Coercions) (data : gmap string value) :
  (∀ f v, required f = true → data !! field_name f = Some v →
          coercible c f v = false →
          ∃ errors, User_init c data = ValidationError errors
                    ∧ mkError (at_field f) type_mismatch ∈ errors)
  ∧ (∀ s z n e, data !! "id" = Some (VStr s) → str_as_int c s = Some z →
                data !! "name" = Some (VStr n) → data !! "email" = Some (VStr e) →
                data !! "users" = None → data !! "address" = None →
                User_init c data = Ok (mkUser z n e None None)).
Proof.
  split.
  - intros f v Hreq Hv Hno. exists (all_errors c data). split.
    + eapply User_init_rejected. by eapply refused_field_errors.
    + eapply field_errors_all. by eapply refused_field_errors.
  - intros s z n e Hid Hz Hname Hemail Husers Haddress.
    apply User_init_Ok.
    + unfold validate_id, validate_required. simpl. rewrite Hid. simpl. by rewrite Hz.
    + unfold validate_name, validate_required. simpl. by rewrite Hname.
    + unfold validate_email, validate_required. simpl. by rewrite Hemail.
    + unfold validate_users, validate_optional. simpl. by rewrite Husers.
    + unfold validate_address, validate_optional. simpl. by rewrite Haddress.
Qed.

Lemma init_refuses_unconvertible_witness :
  (∃ errors, User_init lax_v2 scenario_D = ValidationError errors
             ∧ mkError (at_field f_id) type_mismatch ∈ errors)
  ∧ User_init lax_v2 numeric_id = Ok (mkUser 123 "Bad" "x@example.com" None None).
Proof.
  destruct (init_refuses_unconvertible lax_v2 scenario_D) as [Hfail _].
  destruct (init_refuses_unconvertible lax_v2 numeric_id) as [_ Hpass].
  split.
  - apply (Hfail f_id (VStr "abc")); reflexivity.
  - apply (Hpass "123" 123 "Bad" "x@example.com"); reflexivity.
Defined.

(** C4.  When the value supplied for [id] is neither an integer nor
    convertible to one, as the text "abc" is not, construction fails with a
    [ValidationError] that names the field [id]. *)
Theorem init_id_not_integer (c : Coercions) (data : gmap string value) (v : value) :
  data !! "id" = Some v →
  int_validator c v = None →
  ∃ errors,
    User_init c data = ValidationError errors
    ∧ mkError (at_field f_id) type_mismatch ∈ errors.
Proof.
  intros Hv Hno.
  assert (mkError (at_field f_id) type_mismatch ∈ field_errors c f_id data) as He.
  { simpl. unfold validate_id, validate_required. simpl. rewrite Hv, Hno.
    apply list_elem_of_here. }
  exists (all_errors c data). split.
  - by eapply User_init_rejected.
  - by eapply field_errors_all.
Qed.

Lemma init_id_not_integer_witness :
  ∃ errors,
    User_init lax_v2 scenario_D = ValidationError errors
    ∧ mkError (at_field f_id) type_mismatch ∈ errors.
Proof.
  apply (init_id_not_integer lax_v2 scenario_D (VStr "abc")); reflexivity.
Defined.

(** * Serialization *)

Lemma model_dump_lookup (u : User) :
  model_dump u !! "id" = Some (VInt (id u))
  ∧ model_dump u !! "name" = Some (VStr (name u))
  ∧ model_dump u !! "email" = Some (VStr (email u))
  ∧ model_dump u !! "users" = Some (dump_optional (λ l, VList (VStr <$> l)) (users u))
  ∧ model_dump u !! "address" = Some (dump_optional VStr (address u)).
Proof. unfold model_dump. repeat split; by simplify_map_eq. Qed.

(** C5.  Serializing a record to its field mapping, with the no-value
    marker for an absent [users] or [address], and constructing from that
    mapping succeeds and gives back the record. *)
Theorem dump_init_roundtrip (c : Coercions) (u : User) :
  User_init c (model_dump u) = Ok u.
Proof.
  destruct (model_dump_lookup u) as (Hid & Hname & Hemail & Husers & Haddress).
  destruct u as [i n e us a]. simpl in *.
  apply User_init_Ok.
  - unfold validate_id, validate_required. simpl. by rewrite Hid.
  - unfold validate_name, validate_required. simpl. by rewrite Hname.
  - unfold validate_email, validate_required. simpl. by rewrite Hemail.
  - unfold validate_users, validate_optional. simpl. rewrite Husers.
    destruct us as [l|]; simpl; [|done]. by rewrite list_items_text.
  - unfold validate_address, validate_optional. simpl. rewrite Haddress.
    by destruct a.
Qed.

(** * Absent and empty *)

(** C6.  When the input omits [users], the constructed record has the
    no-value marker there, which is not the empty sequence; when the input
    gives [users] as the empty sequence, the record has the empty
    sequence there, which is not the no-value marker.  Any input that
    constructs still does so with [users] left out or set to the empty
    sequence, and differs in that field only. *)
Theorem init_users_absent_or_empty (c : Coercions) (data : gmap string value) (u : User) :
  User_init c data = Ok u →
  (data !! "users" = None → users u = None ∧ users u ≠ Some [])
  ∧ (data !! "users" = Some (VList []) → users u = Some [] ∧ users u ≠ None)
  ∧ User_init c (delete "users" data)
    = Ok (mkUser (id u) (name u) (email u) None (address u))
  ∧ User_init c (<["users" := VList []]> data)
    = Ok (mkUser (id u) (name u) (email u) (Some []) (address u)).
Proof.
  intros Hu.
  destruct (User_init_cases c data)
    as [(i & n & e & us & a & Hi & Hn & He & Hus & Ha & Hok)|Herr]; [|congruence].
  rewrite Hok in Hu. injection Hu as <-. simpl.
  split; [|split; [|split]].
  - unfold_validators. intros Hd. rewrite Hd in Hus. injection Hus as <-. by split.
  - unfold_validators. intros Hd. rewrite Hd in Hus. simpl in Hus.
    injection Hus as <-. by split.
  - apply User_init_Ok; unfold_validators;
      by rewrite ?lookup_delete_eq, ?lookup_delete_ne by done.
  - apply User_init_Ok; unfold_validators;
      by rewrite ?lookup_insert_eq, ?lookup_insert_ne by done.
Qed.

Lemma init_users_absent_or_empty_witness :
  users (mkUser 1 "Ana" "ana@example.com" None None) = None
  ∧ User_init lax_v2 (<["users" := VList []]> scenario_A)
    = Ok (mkUser 1 "Ana" "ana@example.com" (Some []) None).
Proof.
  destruct (init_users_absent_or_empty lax_v2 scenario_A
              (mkUser 1 "Ana" "ana@example.com" None None))
    as (Habsent & _ & _ & Hempty); [reflexivity|].
  split; [by apply Habsent | exact Hempty].
Defined.

(** * The no-value marker and undeclared keys *)

Lemma declared_only_lookup (data : gmap string value) (f : field) :
  declared_only data !! field_name f = data !! field_name f.
Proof.
  unfold declared_only. rewrite map_lookup_filter.
  destruct (data !! field_name f) as [v|]; simpl; [|done].
  rewrite option_guard_True; [done|]. by destruct f.
Qed.

(** C9.  Supplying the no-value marker for [users], or for [address], has
    the outcome of leaving that key out; with well-typed required fields
    construction succeeds, and the record is the one built when the key
    is left out. *)
Theorem init_explicit_none (c : Coercions) (data : gmap string value) :
  User_init c (<["users" := VNone]> data) = User_init c (delete "users" data)
  ∧ User_init c (<["address" := VNone]> data) = User_init c (delete "address" data)
  ∧ ∀ i n e us a,
      data !! "id" = Some (VInt i) →
      data !! "name" = Some (VStr n) →
      data !! "email" = Some (VStr e) →
      data !! "users" = (λ l, VList (VStr <$> l)) <$> us →
      data !! "address" = VStr <$> a →
      User_init c (<["users" := VNone]> data) = Ok (mkUser i n e None a)
      ∧ User_init c (delete "users" data) = Ok (mkUser i n e None a)
      ∧ User_init c (<["address" := VNone]> data) = Ok (mkUser i n e us None)
      ∧ User_init c (delete "address" data) = Ok (mkUser i n e us None).
Proof.
  assert (User_init c (<["users" := VNone]> data) = User_init c (delete "users" data)) as Hu.
  { unfold User_init. unfold_validators.
    by rewrite ?lookup_insert_eq, ?lookup_delete_eq, ?lookup_insert_ne,
      ?lookup_delete_ne by done. }
  assert (User_init c (<["address" := VNone]> data) = User_init c (delete "address" data)) as Ha.
  { unfold User_init. unfold_validators.
    by rewrite ?lookup_insert_eq, ?lookup_delete_eq, ?lookup_insert_ne,
      ?lookup_delete_ne by done. }
  split; [done|]. split; [done|].
  intros i n e us a Hid Hname Hemail Husers Haddress.
  rewrite Hu, Ha.
  assert (User_init c (delete "users" data) = Ok (mkUser i n e None a)) as Hu'.
  { apply (User_init_typed c _ i n e None a);
      by rewrite ?lookup_delete_eq, ?lookup_delete_ne by done. }
  assert (User_init c (delete "address" data) = Ok (mkUser i n e us None)) as Ha'.
  { apply (User_init_typed c _ i n e us None);
      by rewrite ?lookup_delete_eq, ?lookup_delete_ne by done. }
  done.
Qed.

(** C10.  Keys that are not among the five declared field names are
    ignored: the outcome is that of the input with those keys removed, and
    with well-typed declared fields construction succeeds with the record
    built from the declared keys alone. *)
Theorem init_ignores_extra_keys (c : Coercions) (data : gmap string value) :
  User_init c data = User_init c (declared_only data)
  ∧ ∀ i n e us a,
      data !! "id" = Some (VInt i) →
      data !! "name" = Some (VStr n) →
      data !! "email" = Some (VStr e) →
      data !! "users" = (λ l, VList (VStr <$> l)) <$> us →
      data !! "address" = VStr <$> a →
      User_init c data = Ok (mkUser i n e us a)
      ∧ User_init c (declared_only data) = Ok (mkUser i n e us a).
Proof.
  assert (User_init c data = User_init c (declared_only data)) as Heq.
  { apply User_init_ext. intros f. by rewrite declared_only_lookup. }
  split; [done|].
  intros i n e us a Hid Hname Hemail Husers Haddress.
  rewrite <- Heq. split; by apply User_init_typed.
Qed.

(** * Instances on the heap *)

Lemma field_name_inj (f f' : field) : field_name f = field_name f' → f = f'.
Proof. by destruct f, f'. Qed.

(** What construction does to the heap. *)
Lemma new_User_cases (c : Coercions) (data : gmap string value) (h : heap) :
  (∃ u, User_init c data = Ok u
        ∧ new_User c data h = (constructed (List.length h), h ++ [model_dump u]))
  ∨ (∃ errors, User_init c data = ValidationError errors
               ∧ new_User c data h = (raised errors, h)).
Proof. unfold new_User. destruct (User_init c data); eauto. Qed.

Lemma new_User_constructed (c : Coercions) (data : gmap string value) (h : heap) r :
  (new_User c data h).1 = constructed r →
  ∃ u, User_init c data = Ok u ∧ r = List.length h
       ∧ (new_User c data h).2 = h ++ [model_dump u]
       ∧ (new_User c data h).2 !! r = Some (model_dump u).
Proof.
  destruct (new_User_cases c data h) as [(u & Hu & ->)|(errors & _ & ->)];
    simpl; [|done].
  intros [= <-]. exists u. repeat split; [done|]. apply list_lookup_middle. done.
Qed.

(** C8, as stated, fails: assigning to [name] on a constructed instance
    changes the value read from it afterwards. *)
Lemma assignment_mutates : ¬ never_mutated lax_v2.
Proof.
  intros H.
  specialize (H scenario_A [] 0%nat (set_attribute f_name (VStr "Eve")) f_name).
  vm_compute in H. specialize (H eq_refl). discriminate.
Qed.

(** C8, amended.  The class declares no operation of its own.  On a
    constructed instance, reading a field returns the value given at
    construction, and reading and serializing change nothing; the model is
    not frozen, so assigning a value to a declared field replaces that
    field in place, without validation, and leaves the other fields and the
    other objects as they were. *)
Theorem instance_operations (c : Coercions) (data : gmap string value) (h : heap) (r : ref) :
  (new_User c data h).1 = constructed r →
  ∃ u, User_init c data = Ok u
    ∧ (∀ f, perform (get_attribute f) r (new_User c data h).2
            = (attribute (model_dump u !! field_name f), (new_User c data h).2))
    ∧ perform dump r (new_User c data h).2
      = (mapping (model_dump u), (new_User c data h).2)
    ∧ ∀ f v,
        getattr r f (perform (set_attribute f v) r (new_User c data h).2).2 = Some v
        ∧ (∀ f', f' ≠ f →
                 getattr r f' (perform (set_attribute f v) r (new_User c data h).2).2
                 = getattr r f' (new_User c data h).2)
        ∧ (∀ r', r' ≠ r →
                 (perform (set_attribute f v) r (new_User c data h).2).2 !! r'
                 = (new_User c data h).2 !! r').
Proof.
  intros Hr.
  destruct (new_User_constructed c data h r Hr) as (u & Hu & -> & _ & Hlook).
  exists u. split; [done|].
  set (h1 := (new_User c data h).2) in *.
  assert (List.length h < List.length h1)%nat as Hlt by by eapply lookup_lt_Some.
  unfold perform, getattr. rewrite Hlook.
  split; [done|]. split; [done|].
  intros f v. simpl. split; [|split].
  - rewrite list_lookup_insert_eq by done. simpl. by rewrite lookup_insert_eq.
  - intros f' Hne. rewrite list_lookup_insert_eq by done. simpl.
    rewrite lookup_insert_ne; [done|]. intros Heq. by apply field_name_inj in Heq.
  - intros r' Hne. by rewrite list_lookup_insert_ne.
Qed.

Lemma instance_operations_witness :
  ∃ u, User_init lax_v2 scenario_A = Ok u
    ∧ getattr 0 f_name
        (perform (set_attribute f_name (VStr "Eve")) 0 (new_User lax_v2 scenario_A []).2).2
      = Some (VStr "Eve").
Proof.
  destruct (instance_operations lax_v2 scenario_A [] 0%nat) as (u & Hu & _ & _ & Hset);
    [reflexivity|].
  exists u. split; [exact Hu|]. apply (Hset f_name (VStr "Eve")).
Defined.

(** * Further properties of validation *)

Section Errors.
Context (c : Coercions).
Implicit Types (data : gmap string value) (v : value) (f : field)
  (e : ErrorDetails) (l : list value) (ss : list string).

(** The list validator keeps the items that pass, in order. *)
Lemma list_items_inr f i l ss :
  list_items c f i l = inr ss ↔ Forall2 (λ v s, str_validator c v = Some s) l ss.
Proof.
  revert i ss. induction l as [|v l IH]; intros i ss; simpl.
  - split; [intros [= <-]; constructor | by intros ->%Forall2_nil_inv_l].
  - destruct (str_validator c v) as [s|] eqn:Hv;
      destruct (list_items c f (S i) l) as [es|ss'] eqn:Hl.
    + split; [done|]. intros (s' & ss'' & Hs & Hall & ->)%Forall2_cons_inv_l.
      apply (IH (S i)) in Hall. congruence.
    + split.
      * intros [= <-]. constructor; [done|]. by apply (IH (S i)).
      * intros (s' & ss'' & Hs & Hall & ->)%Forall2_cons_inv_l.
        apply (IH (S i)) in Hall. congruence.
    + split; [done|]. intros (s' & ss'' & Hs & _ & ->)%Forall2_cons_inv_l.
      congruence.
    + split; [done|]. intros (s' & ss'' & Hs & _ & ->)%Forall2_cons_inv_l.
      congruence.
Qed.

(** Its errors are exactly the items that fail, each at its index. *)
Lemma list_items_inl f i l es e :
  list_items c f i l = inl es →
  e ∈ es ↔ ∃ j v, l !! j = Some v ∧ str_validator c v = None
                  ∧ e = mkError (at_item f (i + j)) type_mismatch.
Proof.
  revert i es. induction l as [|v l IH]; intros i es; simpl; [done|].
  destruct (str_validator c v) as [s|] eqn:Hv;
    destruct (list_items c f (S i) l) as [es'|ss'] eqn:Hl; intros [= <-].
  - rewrite (IH (S i) es' Hl). split.
    + intros (j & w & Hj & Hw & ->). exists (S j), w.
      repeat split; [done..|]. do 2 f_equal. lia.
    + intros ([|j] & w & Hj & Hw & ->); simpl in Hj; [congruence|].
      exists j, w. repeat split; [done..|]. do 2 f_equal. lia.
  - rewrite elem_of_cons, (IH (S i) es' Hl). split.
    + intros [->|(j & w & Hj & Hw & ->)].
      * exists 0%nat, v. repeat split; [done..|]. do 2 f_equal. lia.
      * exists (S j), w. repeat split; [done..|]. do 2 f_equal. lia.
    + intros ([|j] & w & Hj & Hw & ->); simpl in Hj.
      * left. do 2 f_equal. lia.
      * right. exists j, w. repeat split; [done..|]. do 2 f_equal. lia.
  - rewrite list_elem_of_singleton. split.
    + intros ->. exists 0%nat, v. repeat split; [done..|]. do 2 f_equal. lia.
    + intros ([|j] & w & Hj & Hw & ->); simpl in Hj.
      * do 2 f_equal. lia.
      * assert (Forall2 (λ v s, str_validator c v = Some s) l ss') as Hall
          by by apply (list_items_inr f (S i)).
        destruct (Forall2_lookup_l _ _ _ _ _ Hall Hj) as (s' & _ & Hs'). congruence.
Qed.

Lemma list_items_inl_nonempty f i l es : list_items c f i l = inl es → es ≠ [].
Proof.
  revert i es. induction l as [|v l IH]; intros i es; simpl; [done|].
  destruct (str_validator c v), (list_items c f (S i) l) eqn:Hl; intros [= <-];
    eauto.
Qed.

(** The errors a required field contributes. *)
Lemma required_field_errors f data :
  required f = true →
  field_errors c f data
  = match data !! field_name f with
    | None => [mkError (at_field f) missing]
    | Some v => if coercible c f v then [] else [mkError (at_field f) type_mismatch]
    end.
Proof.
  destruct f; try done; intros _; simpl; unfold_validators;
    destruct (data !! _) as [v|]; try done; simpl.
  - by destruct (int_validator c v).
  - by destruct (str_validator c v).
  - by destruct (str_validator c v).
Qed.

(** The errors the two optional fields contribute. *)
Lemma users_field_errors data :
  field_errors c f_users data
  = match data !! "users" with
    | None | Some VNone => []
    | Some (VList l) => errors_of (list_items c f_users 0 l)
    | Some _ => [mkError (at_field f_users) type_mismatch]
    end.
Proof.
  simpl. unfold_validators. destruct (data !! "users") as [[| | | |l]|]; try done.
  simpl. by destruct (list_items c f_users 0 l).
Qed.

Lemma address_field_errors data :
  field_errors c f_address data
  = match data !! "address" with
    | None | Some VNone => []
    | Some v => match str_validator c v with
                | Some _ => []
                | None => [mkError (at_field f_address) type_mismatch]
                end
    end.
Proof.
  simpl. unfold_validators. destruct (data !! "address") as [v|]; [|done].
  destruct v; try done; simpl; by destruct (_ c _).
Qed.

Lemma all_errors_elem data e :
  e ∈ all_errors c data ↔ ∃ f, e ∈ field_errors c f data.
Proof.
  split.
  - unfold all_errors. rewrite !elem_of_app.
    intros [?|[?|[?|[?|?]]]];
      [by exists f_id | by exists f_name | by exists f_email
      | by exists f_users | by exists f_address].
  - intros [f Hf]. by eapply field_errors_all.
Qed.

(** A failed construction raises the errors of all fields. *)
Lemma User_init_raised data errors :
  User_init c data = ValidationError errors → errors = all_errors c data.
Proof.
  destruct (User_init_cases c data) as [(i&n&e&us&a&_&_&_&_&_&Hok)|Herr];
    congruence.
Qed.

(** What the validator of a field returned is empty only on success. *)
Lemma field_result_nonempty f data :
  match f with
  | f_id => ∀ es, validate_id c data = inl es → es ≠ []
  | f_name => ∀ es, validate_name c data = inl es → es ≠ []
  | f_email => ∀ es, validate_email c data = inl es → es ≠ []
  | f_users => ∀ es, validate_users c data = inl es → es ≠ []
  | f_address => ∀ es, validate_address c data = inl es → es ≠ []
  end.
Proof.
  destruct f; intros es; unfold_validators;
    destruct (data !! _) as [v|]; try (by intros [= <-]).
  - destruct (int_validator c v); by intros [= <-].
  - destruct (str_validator c v); by intros [= <-].
  - destruct (str_validator c v); by intros [= <-].
  - destruct v as [| | | |l]; try (by intros [= <-]). simpl.
    destruct (list_items c f_users 0 l) eqn:Hl; intros [= <-].
    by eapply list_items_inl_nonempty.
  - destruct v; try (by intros [= <-]); simpl;
      destruct (_ c _); by intros [= <-].
Qed.

Lemma all_errors_nil_Ok data :
  all_errors c data = [] → ∃ u, User_init c data = Ok u.
Proof.
  unfold all_errors. intros Hnil.
  destruct (validate_id c data) as [es|i] eqn:H1.
  { apply (field_result_nonempty f_id) in H1. simpl in Hnil. by apply app_eq_nil in Hnil as [? _]. }
  destruct (validate_name c data) as [es|n] eqn:H2.
  { apply (field_result_nonempty f_name) in H2. simpl in Hnil. by apply app_eq_nil in Hnil as [? _]. }
  destruct (validate_email c data) as [es|e] eqn:H3.
  { apply (field_result_nonempty f_email) in H3. simpl in Hnil. by apply app_eq_nil in Hnil as [? _]. }
  destruct (validate_users c data) as [es|us] eqn:H4.
  { apply (field_result_nonempty f_users) in H4. simpl in Hnil. by apply app_eq_nil in Hnil as [? _]. }
  destruct (validate_address c data) as [es|a] eqn:H5.
  { apply (field_result_nonempty f_address) in H5. simpl in Hnil. done. }
  eexists. by apply User_init_Ok.
Qed.

Lemma User_init_Ok_no_errors data u :
  User_init c data = Ok u → all_errors c data = [].
Proof.
  destruct (User_init_cases c data) as [(i&n&e&us&a&H1&H2&H3&H4&H5&_)|Herr];
    [|congruence].
  intros _. unfold all_errors. by rewrite H1, H2, H3, H4, H5.
Qed.

(** A missing-field error is raised only for an absent required key. *)
Lemma missing_only_if_absent data f :
  mkError (at_field f) missing ∈ all_errors c data →
  required f = true ∧ data !! field_name f = None.
Proof.
  intros He. apply all_errors_elem in He as [f' He].
  destruct (required f') eqn:Hreq.
  - rewrite required_field_errors in He by done.
    destruct (data !! field_name f') as [v|] eqn:Hv.
    + destruct (coercible c f' v); [by apply elem_of_nil in He|].
      by apply list_elem_of_singleton in He.
    + apply list_elem_of_singleton in He. injection He as <-. done.
  - destruct f'; try done.
    + rewrite users_field_errors in He.
      destruct (data !! "users") as [[| | | |l]|];
        try (by apply elem_of_nil in He);
        try (by apply list_elem_of_singleton in He).
      destruct (list_items c f_users 0 l) as [es|ss] eqn:Hl; simpl in He;
        [|by apply elem_of_nil in He].
      apply (list_items_inl _ _ _ _ _ Hl) in He as (j & w & _ & _ & [=]).
    + rewrite address_field_errors in He.
      destruct (data !! "address") as [v|]; [|by apply elem_of_nil in He].
      destruct v; try (by apply elem_of_nil in He);
        destruct (str_validator c _);
        try (by apply elem_of_nil in He);
        by apply list_elem_of_singleton in He.
Qed.

End Errors.

(** X1.  A [ValidationError] never comes with an empty list of errors,
    and construction succeeds exactly when no field has an error. *)
Theorem failure_reports_errors (c : Coercions) (data : gmap string value) :
  (∀ errors, User_init c data = ValidationError errors → errors ≠ [])
  ∧ (all_errors c data = [] ↔ ∃ u, User_init c data = Ok u).
Proof.
  split.
  - intros errors Herr Hnil.
    pose proof (User_init_raised c data errors Herr) as Hall.
    rewrite Hnil in Hall. symmetry in Hall.
    apply all_errors_nil_Ok in Hall as [u Hu]. congruence.
  - split; [apply all_errors_nil_Ok|]. intros [u Hu]. by eapply User_init_Ok_no_errors.
Qed.

(** X2.  A field is reported as missing exactly when it is a required
    field and its key is absent from the input: an optional field, and a
    field whose key is present whatever its value, is never reported as
    missing. *)
Theorem missing_reported_iff (c : Coercions) (data : gmap string value) (f : field) :
  (required f = true ∧ data !! field_name f = None)
  ↔ ∃ errors, User_init c data = ValidationError errors
              ∧ mkError (at_field f) missing ∈ errors.
Proof.
  split.
  - intros [Hreq Habsent]. exists (all_errors c data). split.
    + eapply User_init_rejected. by apply missing_field_errors.
    + eapply field_errors_all. by apply missing_field_errors.
  - intros (errors & Herr & He). apply User_init_raised in Herr. subst errors.
    by apply missing_only_if_absent in He.
Qed.

(** X3.  An optional field is still validated when it is supplied: a
    boolean, an integer or text supplied for [users], and a value for
    [address] that is not the no-value marker and that the text validator
    refuses, makes construction fail with an error at that field, whatever
    the other fields hold. *)
Theorem optional_field_refused (c : Coercions) (data : gmap string value) (v : value) :
  (data !! "users" = Some v →
   (∃ b, v = VBool b) ∨ (∃ z, v = VInt z) ∨ (∃ s, v = VStr s) →
   ∃ errors, User_init c data = ValidationError errors
             ∧ mkError (at_field f_users) type_mismatch ∈ errors)
  ∧ (data !! "address" = Some v → v ≠ VNone → str_validator c v = None →
     ∃ errors, User_init c data = ValidationError errors
               ∧ mkError (at_field f_address) type_mismatch ∈ errors).
Proof.
  split.
  - intros Hv Hkind.
    assert (mkError (at_field f_users) type_mismatch ∈ field_errors c f_users data) as He.
    { rewrite users_field_errors, Hv.
      destruct Hkind as [[b ->]|[[z ->]|[s ->]]]; apply list_elem_of_here. }
    exists (all_errors c data). split;
      [by eapply User_init_rejected | by eapply field_errors_all].
  - intros Hv Hnone Hstr.
    assert (mkError (at_field f_address) type_mismatch ∈ field_errors c f_address data) as He.
    { rewrite address_field_errors, Hv, Hstr.
      destruct v; try done; apply list_elem_of_here. }
    exists (all_errors c data). split;
      [by eapply User_init_rejected | by eapply field_errors_all].
Qed.

Lemma optional_field_refused_witness :
  (∃ errors, User_init lax_v2 (<["users" := VStr "x"]> scenario_A) = ValidationError errors
             ∧ mkError (at_field f_users) type_mismatch ∈ errors)
  ∧ (∃ errors, User_init lax_v2 (<["address" := VList []]> scenario_A)
               = ValidationError errors
               ∧ mkError (at_field f_address) type_mismatch ∈ errors).
Proof.
  destruct (optional_field_refused lax_v2 (<["users" := VStr "x"]> scenario_A) (VStr "x"))
    as [Husers _].
  destruct (optional_field_refused lax_v2 (<["address" := VList []]> scenario_A) (VList []))
    as [_ Haddress].
  split.
  - apply Husers; [reflexivity|]. right. right. by exists "x".
  - apply Haddress; [reflexivity | discriminate | reflexivity].
Defined.

(** X4.  When [users] is supplied as a list, item [i] is reported, at
    its index, exactly when the list has an item at [i] that the text
    validator refuses: every failing item is reported, not only the
    first, and no passing item is. *)
Theorem users_item_reported_iff (c : Coercions) (data : gmap string value)
    (l : list value) (i : nat) :
  data !! "users" = Some (VList l) →
  (∃ v, l !! i = Some v ∧ str_validator c v = None)
  ↔ ∃ errors, User_init c data = ValidationError errors
              ∧ mkError (at_item f_users i) type_mismatch ∈ errors.
Proof.
  intros Hl. split.
  - intros (v & Hi & Hv).
    assert (mkError (at_item f_users i) type_mismatch ∈ field_errors c f_users data) as He.
    { rewrite users_field_errors, Hl.
      destruct (list_items c f_users 0 l) as [es|ss] eqn:Hit; simpl.
      - apply (list_items_inl c _ _ _ _ _ Hit). by exists i, v.
      - apply list_items_inr in Hit.
        destruct (Forall2_lookup_l _ _ _ _ _ Hit Hi) as (s & _ & Hs). congruence. }
    exists (all_errors c data). split;
      [by eapply User_init_rejected | by eapply field_errors_all].
  - intros (errors & Herr & He). apply User_init_raised in Herr. subst errors.
    apply all_errors_elem in He as [f' He].
    destruct (required f') eqn:Hreq.
    + rewrite required_field_errors in He by done.
      destruct (data !! field_name f') as [v|].
      * destruct (coercible c f' v); [by apply elem_of_nil in He|].
        by apply list_elem_of_singleton in He.
      * by apply list_elem_of_singleton in He.
    + destruct f'; try done.
      * rewrite users_field_errors, Hl in He.
        destruct (list_items c f_users 0 l) as [es|ss] eqn:Hit; simpl in He;
          [|by apply elem_of_nil in He].
        apply (list_items_inl c _ _ _ _ _ Hit) in He as (j & w & Hj & Hw & [= ->]).
        by exists w.
      * rewrite address_field_errors in He.
        destruct (data !! "address") as [v|]; [|by apply elem_of_nil in He].
        destruct v; try (by apply elem_of_nil in He);
          destruct (str_validator c _);
          try (by apply elem_of_nil in He);
          by apply list_elem_of_singleton in He.
Qed.

Lemma users_item_reported_iff_witness :
  ∃ errors,
    User_init lax_v2 (<["users" := VList [VStr "x"; VNone]]> scenario_A)
    = ValidationError errors
    ∧ mkError (at_item f_users 1) type_mismatch ∈ errors.
Proof.
  apply (users_item_reported_iff lax_v2
           (<["users" := VList [VStr "x"; VNone]]> scenario_A)
           [VStr "x"; VNone] 1); [reflexivity|].
  exists VNone. split; reflexivity.
Defined.

(** X5.  When [users] is supplied as a list and construction succeeds,
    the record keeps one text per supplied item, in the supplied order:
    item [i] of the record is what the text validator made of item [i] of
    the input, and nothing is dropped, added or reordered. *)
Theorem users_kept_in_order (c : Coercions) (data : gmap string value)
    (l : list value) (u : User) :
  data !! "users" = Some (VList l) →
  User_init c data = Ok u →
  ∃ ss, users u = Some ss
        ∧ List.length ss = List.length l
        ∧ ∀ i : nat, ss !! i = l !! i ≫= str_validator c.
Proof.
  intros Hl Hu.
  destruct (User_init_cases c data)
    as [(i & n & e & us & a & _ & _ & _ & Hus & _ & Hok)|Herr]; [|congruence].
  rewrite Hok in Hu. injection Hu as <-. simpl.
  unfold_validators. rewrite Hl in Hus. simpl in Hus.
  destruct (list_items c f_users 0 l) as [es|ss] eqn:Hit; [done|].
  injection Hus as <-. exists ss. split; [done|].
  apply list_items_inr in Hit.
  pose proof (Forall2_length _ _ _ Hit) as Hlen. split; [done|].
  intros j. destruct (l !! j) as [v|] eqn:Hj; simpl.
  - destruct (Forall2_lookup_l _ _ _ _ _ Hit Hj) as (s & Hs & Hv). congruence.
  - apply lookup_ge_None. apply lookup_ge_None in Hj. lia.
Qed.

Lemma users_kept_in_order_witness :
  ∃ ss, users (mkUser 2 "Bo" "bo@example.com" (Some ["x"; "y"]) (Some "Main St")) = Some ss
        ∧ List.length ss = 2%nat
        ∧ ∀ i : nat, ss !! i = [VStr "x"; VStr "y"] !! i ≫= str_validator lax_v2.
Proof.
  apply (users_kept_in_order lax_v2 scenario_B [VStr "x"; VStr "y"]); reflexivity.
Defined.

(** X6.  Each field of the record depends on its own key alone: two
    inputs that both construct and agree on the value of a key, present or
    absent, give records that agree on that field, whatever the other keys
    hold. *)
Theorem fields_independent (c : Coercions) (data data' : gmap string value)
    (u u' : User) :
  User_init c data = Ok u →
  User_init c data' = Ok u' →
  (data !! "id" = data' !! "id" → id u = id u')
  ∧ (data !! "name" = data' !! "name" → name u = name u')
  ∧ (data !! "email" = data' !! "email" → email u = email u')
  ∧ (data !! "users" = data' !! "users" → users u = users u')
  ∧ (data !! "address" = data' !! "address" → address u = address u').
Proof.
  intros Hu Hu'.
  destruct (User_init_cases c data)
    as [(i & n & e & us & a & H1 & H2 & H3 & H4 & H5 & Hok)|Herr]; [|congruence].
  destruct (User_init_cases c data')
    as [(i' & n' & e' & us' & a' & H1' & H2' & H3' & H4' & H5' & Hok')|Herr'];
    [|congruence].
  rewrite Hok in Hu. rewrite Hok' in Hu'.
  injection Hu as <-. injection Hu' as <-. simpl.
  unfold_validators.
  repeat split; intros Heq; rewrite Heq in *; congruence.
Qed.

Lemma fields_independent_witness :
  name (mkUser 1 "Ana" "ana@example.com" None None)
  = name (mkUser 7 "Ana" "ana@example.com" None None).
Proof.
  apply (fields_independent lax_v2 scenario_A (<["id" := VInt 7]> scenario_A));
    reflexivity.
Defined.

(** X8.  The no-value marker and a list are never taken for [id],
    [name] or [email], in any release: supplied for a required field they
    make construction fail with a type error at that field, and the field
    is not reported as missing, since its key is present. *)
Theorem required_refuses_none_and_list (c : Coercions) (data : gmap string value)
    (f : field) (v : value) :
  required f = true →
  data !! field_name f = Some v →
  v = VNone ∨ (∃ l, v = VList l) →
  ∃ errors, User_init c data = ValidationError errors
            ∧ mkError (at_field f) type_mismatch ∈ errors
            ∧ mkError (at_field f) missing ∉ errors.
Proof.
  intros Hreq Hv Hkind.
  assert (coercible c f v = false) as Hno.
  { destruct Hkind as [->|[l ->]]; by destruct f. }
  exists (all_errors c data). split; [|split].
  - eapply User_init_rejected. by eapply refused_field_errors.
  - eapply field_errors_all. by eapply refused_field_errors.
  - intros [_ Habsent]%missing_only_if_absent. congruence.
Qed.

Lemma required_refuses_none_and_list_witness :
  ∃ errors, User_init lax_v2 (<["email" := VNone]> scenario_A) = ValidationError errors
            ∧ mkError (at_field f_email) type_mismatch ∈ errors
            ∧ mkError (at_field f_email) missing ∉ errors.
Proof.
  apply (required_refuses_none_and_list lax_v2 (<["email" := VNone]> scenario_A)
           f_email VNone); [reflexivity | reflexivity | by left].
Defined.

(** * Further properties of instances *)

(** X10.  Assignment is not validated: on a constructed instance, a
    value that the validator of a required field refuses is stored as it
    is, the instance then serializes to a mapping holding that value, and
    constructing from that mapping fails with a type error at the field. *)
Theorem assignment_not_validated (c : Coercions) (data : gmap string value)
    (h : heap) (r : ref) (f : field) (v : value) :
  (new_User c data h).1 = constructed r →
  required f = true →
  coercible c f v = false →
  (perform (set_attribute f v) r (new_User c data h).2).1 = assigned
  ∧ ∃ d, (perform dump r (perform (set_attribute f v) r (new_User c data h).2).2).1
         = mapping d
         ∧ d !! field_name f = Some v
         ∧ ∃ errors, User_init c d = ValidationError errors
                     ∧ mkError (at_field f) type_mismatch ∈ errors.
Proof.
  intros Hr Hreq Hno.
  destruct (new_User_constructed c data h r Hr) as (u & Hu & -> & _ & Hlook).
  set (h1 := (new_User c data h).2) in *.
  assert (List.length h < List.length h1)%nat as Hlt by by eapply lookup_lt_Some.
  unfold perform. rewrite Hlook. simpl.
  rewrite list_lookup_insert_eq by done. simpl.
  split; [done|]. eexists. split; [done|].
  assert (<[field_name f := v]> (model_dump u) !! field_name f = Some v) as Hv
    by apply lookup_insert_eq.
  split; [done|]. exists (all_errors c (<[field_name f := v]> (model_dump u))). split.
  - eapply User_init_rejected. by eapply refused_field_errors.
  - eapply field_errors_all. by eapply refused_field_errors.
Qed.

Lemma assignment_not_validated_witness :
  (perform (set_attribute f_id (VStr "abc")) 0 (new_User lax_v2 scenario_A []).2).1
  = assigned.
Proof.
  apply (assignment_not_validated lax_v2 scenario_A [] 0%nat f_id (VStr "abc"));
    reflexivity.
Defined.
